(** * The video generation pipeline of [backend/server.py]

    A shallow embedding of [create_ken_burns_effect],
    [create_video_from_images] and the [generate_video] route, with the
    properties of the pipeline and of the job life cycle proved on it.

    Conventions of the embedding.
    - Python numbers are integers or binary64 floats ([pynum]); float
      arithmetic is that of IEEE 754, with its infinities and its NaN, as
      the Standard Library's [SpecFloat] defines it.  The clip duration,
      the result of one true division, is kept as the exact quotient it
      rounds from ([Q]); wherever the code computes with it, its binary64
      value [float_of_Q] is what enters the computation.
    - The outside world (file system, PIL, the ffmpeg executable, the
      temporary directory allocator) is an arbitrary deterministic
      machine: a state of an arbitrary type together with one oracle per
      library call.  Every theorem quantifies over all such machines.
    - The MongoDB collection is an in-memory list of documents whose
      operations always succeed.
    - Exceptions are values; a Python [try ... except Exception] is
      [try_except].  Output of [print] is not modelled. *)

From Stdlib Require Import ZArith QArith Ascii String List Lia SpecFloat.
From stdpp Require Import base option list gmap sets strings pretty.

Local Open Scope Z_scope.
Local Open Scope string_scope.
Local Open Scope list_scope.

(** ** Data model *)

Module VideoProject.
(** [class VideoProject(BaseModel)] *)
Record t : Type := Build {
  id : string;
  name : string;
  images : list string;          (* base64 encoded images *)
  duration : Z;                  (* seconds *)
  music_file : option string;
  logo_file : option string;
  logo_opacity : Q;
  resolution : string;
  created_at : Z;
  video_url : option string;
  status : string                (* draft, processing, completed, failed *)
}.

Definition set_status (s : string) (p : t) : t :=
  Build (id p) (name p) (images p) (duration p) (music_file p) (logo_file p)
        (logo_opacity p) (resolution p) (created_at p) (video_url p) s.

Definition set_video_url (u : string) (p : t) : t :=
  Build (id p) (name p) (images p) (duration p) (music_file p) (logo_file p)
        (logo_opacity p) (resolution p) (created_at p) (Some u) (status p).

Definition set_logo_opacity (o : Q) (p : t) : t :=
  Build (id p) (name p) (images p) (duration p) (music_file p) (logo_file p)
        o (resolution p) (created_at p) (video_url p) (status p).
End VideoProject.

(** Exceptions that reach an [except Exception] clause. *)
Inductive exn : Type :=
  | Exception (msg : string)
  | HTTPException (status_code : Z) (detail : string)
  | BinasciiError            (* base64.b64decode on malformed input *)
  | OSError                  (* open / write / mkdtemp / rmtree *)
  | UnidentifiedImageError   (* PIL.Image.open *)
  | FfmpegError              (* ffmpeg.Error raised by run *)
  | ZeroDivisionError
  | IndexError
  | ValueError               (* int() of a NaN *)
  | OverflowError.           (* int() of an infinity, float() of a huge int *)

(** *** ffmpeg-python stream graphs *)

Inductive value : Type :=
  | VStr (s : string)
  | VInt (z : Z)
  | VFloat (q : Q).

Definition kwargs : Type := list (string * value).

#[warnings="-register-all"]
Inductive stream : Type :=
  | ff_input (filename : string) (kw : kwargs)
  | ff_filter (ins : list stream) (filter_name : string) (args : list value) (kw : kwargs)
  | ff_overlay (main over : stream) (kw : kwargs)
  | ff_audio (s : stream)
  | ff_output (ins : list stream) (filename : string) (kw : kwargs)
  | ff_overwrite_output (s : stream).

(** One invocation of the ffmpeg executable: [ffmpeg.run(stream, ...)]. *)
Record ffcmd : Type := FfCmd {
  cmd_stream : stream;
  cmd_overwrite_output : bool;
  cmd_quiet : bool
}.

(** The file an output node writes. *)
Fixpoint output_file (s : stream) : option string :=
  match s with
  | ff_output _ f _ => Some f
  | ff_overwrite_output s' => output_file s'
  | _ => None
  end.

(** The filters applied on the way from the inputs to the output, outermost
    last, along the first input of every node. *)
Fixpoint filter_chain (s : stream) : list (string * list value * kwargs) :=
  match s with
  | ff_input _ _ => []
  | ff_filter ins n a kw =>
      match ins with
      | s' :: _ => (filter_chain s' ++ [(n, a, kw)])%list
      | [] => [(n, a, kw)]
      end
  | ff_overlay m _ kw => (filter_chain m ++ [("overlay", [], kw)])%list
  | ff_audio s' => filter_chain s'
  | ff_output ins _ _ =>
      match ins with
      | s' :: _ => filter_chain s'
      | [] => []
      end
  | ff_overwrite_output s' => filter_chain s'
  end.

(** ** Python helpers *)

(** A Python number: an [int] or a binary64 [float]. *)
Inductive pynum : Type :=
  | PyInt (z : Z)
  | PyFloat (f : spec_float).

(** The value or the exception of a computation without effects. *)
Inductive result (A : Type) : Type :=
  | Ok (a : A)
  | Error (e : exn).

Arguments Ok {A}.
Arguments Error {A}.

(** [float(z)] where it is defined: the nearest binary64. *)
Definition float_of_Z (z : Z) : spec_float := binary_normalize 53 1024 z 0 false.

(** The binary64 nearest to a rational: what a decimal literal denotes and
    what the true division of two integers returns. *)
Definition float_of_Q (q : Q) : spec_float :=
  match Qnum q with
  | Z0 => S754_zero false
  | Zpos m => SFdiv 53 1024 (S754_finite false m 0) (S754_finite false (Qden q) 0)
  | Zneg m => SFdiv 53 1024 (S754_finite true m 0) (S754_finite false (Qden q) 0)
  end.

(** [int(f)] on a float: truncation toward zero; a NaN and the infinities
    raise. *)
Definition py_int_float (f : spec_float) : result Z :=
  match f with
  | S754_nan => Error ValueError
  | S754_infinity _ => Error OverflowError
  | S754_zero _ => Ok 0
  | S754_finite s m e =>
      Ok (if s then - Z.shiftl (Z.pos m) e else Z.shiftl (Z.pos m) e)
  end.

(** [int(x)] *)
Definition py_int (x : pynum) : result Z :=
  match x with
  | PyInt z => Ok z
  | PyFloat f => py_int_float f
  end.

(** [a * x] for an [int] [a]: exact on integers; on a float, [a] is
    converted first, which raises when it is too large. *)
Definition py_mul_int (a : Z) (x : pynum) : result pynum :=
  match x with
  | PyInt z => Ok (PyInt (a * z))
  | PyFloat f =>
      match float_of_Z a with
      | S754_infinity _ => Error OverflowError
      | fa => Ok (PyFloat (SFmul 53 1024 fa f))
      end
  end.

(** [int(a * x)] *)
Definition py_int_mul (a : Z) (x : pynum) : result Z :=
  match py_mul_int a x with
  | Ok y => py_int y
  | Error e => Error e
  end.

(** An f-string, as its literal parts and the numbers it formats. *)
Inductive fpart : Type :=
  | Lit (s : string)
  | Num (x : pynum).

(** [f"scale={int(width*zoom_start)}:{int(height*zoom_start)}"] (line 79) *)
Definition zoom_filter_of (width height : Z) (zoom_start : pynum) : result (list fpart) :=
  match py_int_mul width zoom_start with
  | Ok a =>
      match py_int_mul height zoom_start with
      | Ok b => Ok [Lit "scale="; Num (PyInt a); Lit ":"; Num (PyInt b)]
      | Error e => Error e
      end
  | Error e => Error e
  end.

(** [int(duration*30)] (line 87), on the binary64 value of the duration. *)
Definition frames_of (duration : Q) : result Z :=
  py_int_float (SFmul 53 1024 (float_of_Q duration) (float_of_Z 30)).

(** [str(i)] on an int. *)
Definition py_str_int (z : Z) : string := pretty z.

Fixpoint ends_with_sep (s : string) : bool :=
  match s with
  | EmptyString => false
  | String c EmptyString => bool_decide (c = "/"%char)
  | String _ s' => ends_with_sep s'
  end.

(** [os.path.join(a, b)] (posixpath). *)
Definition os_path_join (a b : string) : string :=
  if String.prefix "/" b then b
  else if bool_decide (a = "") || ends_with_sep a then a +:+ b
  else a +:+ "/" +:+ b.

(** ** The world the server runs in *)

(** The library calls whose result is not determined by the program: each is
    an oracle over a state [X] of the outside world. *)
Record Env (X : Type) : Type := MkEnv {
  (** [tempfile.mkdtemp()]: the new directory, or [None] for [OSError] *)
  env_mkdtemp : X → option string * X;
  (** [base64.b64decode(s)]: the bytes, or [None] for [binascii.Error] *)
  env_b64decode : string → option string;
  (** [open(path, 'wb')] followed by [f.write(data)]: [false] for [OSError] *)
  env_write : string → string → X → bool * X;
  (** [Image.open(path).size]: [None] when PIL cannot read the file *)
  env_image_size : string → X → option (Z * Z) * X;
  (** running the ffmpeg executable: the bytes of the output file, or [None]
      for [ffmpeg.Error] *)
  env_ffmpeg : ffcmd → X → option string * X;
  (** [shutil.rmtree(path)]: [false] for [OSError] *)
  env_rmtree : string → X → bool * X;
  (** [str(OUTPUT_DIR / name)] of pathlib *)
  env_output_path : string → string;
  (** [str(e)] on an exception *)
  env_str_exn : exn → string
}.

Arguments env_mkdtemp {X}.
Arguments env_b64decode {X}.
Arguments env_write {X}.
Arguments env_image_size {X}.
Arguments env_ffmpeg {X}.
Arguments env_rmtree {X}.
Arguments env_output_path {X}.
Arguments env_str_exn {X}.

Record World (X : Type) : Type := MkWorld {
  db : list VideoProject.t;      (* the collection db.video_projects *)
  dirs : gset string;            (* directories made by mkdtemp that exist *)
  files : gmap string string;    (* files written by the server, by path *)
  runs : list (ffcmd * option string);
                                 (* ffmpeg invocations so far, oldest first, each
                                    with the bytes it produced, if it succeeded *)
  ext : X                        (* the rest of the world *)
}.

Arguments MkWorld {X}.
Arguments db {X}.
Arguments dirs {X}.
Arguments files {X}.
Arguments runs {X}.
Arguments ext {X}.

(** The answer of the [generate] route. *)
Record response : Type := Response {
  message : string;
  resp_video_url : string
}.

Inductive outcome (A : Type) : Type :=
  | Return (a : A)
  | Raise (e : exn).

Arguments Return {A}.
Arguments Raise {A}.

(** *** The collection *)

(** [find_one({"id": project_id})]: the first document with that id. *)
Fixpoint find_one (project_id : string) (d : list VideoProject.t) : option VideoProject.t :=
  match d with
  | [] => None
  | p :: d' =>
      if bool_decide (VideoProject.id p = project_id) then Some p
      else find_one project_id d'
  end.

(** [update_one({"id": project_id}, {"$set": ...})]: the first document with
    that id is updated, no document when there is none. *)
Fixpoint update_one (project_id : string) (f : VideoProject.t → VideoProject.t)
    (d : list VideoProject.t) : list VideoProject.t :=
  match d with
  | [] => []
  | p :: d' =>
      if bool_decide (VideoProject.id p = project_id) then f p :: d'
      else p :: update_one project_id f d'
  end.

(** *** Cross-fade composition (the loop over [range(1, len(inputs))]) *)

Definition xfade (a b : stream) : stream :=
  ff_filter [a; b] "xfade" [] [("transition", VStr "fade"); ("duration", VFloat (1 # 2))].

Fixpoint xfade_loop (inputs : list stream) (range : list nat) (s : stream) : option stream :=
  match range with
  | [] => Some s
  | i :: range' =>
      match inputs !! i with
      | Some c => xfade_loop inputs range' (xfade s c)
      | None => None
      end
  end.

(** [None] stands for [IndexError]. *)
Definition concat_clips (video_clips : list string) : option stream :=
  let inputs := map (λ clip, ff_input clip []) video_clips in
  if bool_decide (length inputs = 1%nat) then inputs !! 0%nat
  else
    match inputs !! 0%nat with
    | Some s => xfade_loop inputs (seq 1 (length inputs - 1)) s
    | None => None
    end.

(** The composition as the specification words it: one clip passes through,
    and every further clip is cross-faded onto what precedes it. *)
Definition crossfade_chain (clips : list string) : option stream :=
  match clips with
  | [] => None
  | c :: cs => Some (fold_left (λ s c', xfade s (ff_input c' [])) cs (ff_input c []))
  end.

(** ** The program *)

Section Server.
Context {X : Type}.
Variable env : Env X.

(** State and exceptions. *)
Definition M (A : Type) : Type := World X → outcome A * World X.

Definition ret {A} (a : A) : M A := λ w, (Return a, w).
Definition raise {A} (e : exn) : M A := λ w, (Raise e, w).
Definition bind {A B} (m : M A) (k : A → M B) : M B :=
  λ w, match m w with
       | (Return a, w') => k a w'
       | (Raise e, w') => (Raise e, w')
       end.
Definition try_except {A} (m : M A) (h : exn → M A) : M A :=
  λ w, match m w with
       | (Return a, w') => (Return a, w')
       | (Raise e, w') => h e w'
       end.

#[global] Instance M_ret : MRet M := @ret.
#[global] Instance M_bind : MBind M := λ A B k m, bind m k.

(** *** Library calls *)

Definition mkdtemp : M string := λ w,
  match env_mkdtemp env (ext w) with
  | (Some d, x) => (Return d, MkWorld (db w) ({[d]} ∪ dirs w) (files w) (runs w) x)
  | (None, x) => (Raise OSError, MkWorld (db w) (dirs w) (files w) (runs w) x)
  end.

Definition b64decode (s : string) : M string :=
  match env_b64decode env s with
  | Some data => mret data
  | None => raise BinasciiError
  end.

Definition write_file (path data : string) : M unit := λ w,
  match env_write env path data (ext w) with
  | (true, x) => (Return (), MkWorld (db w) (dirs w) (<[path := data]> (files w)) (runs w) x)
  | (false, x) => (Raise OSError, MkWorld (db w) (dirs w) (files w) (runs w) x)
  end.

Definition image_size (path : string) : M (Z * Z) := λ w,
  match env_image_size env path (ext w) with
  | (Some wh, x) => (Return wh, MkWorld (db w) (dirs w) (files w) (runs w) x)
  | (None, x) => (Raise UnidentifiedImageError, MkWorld (db w) (dirs w) (files w) (runs w) x)
  end.

(** The process is recorded in [runs]; on success its output file holds the
    bytes the encoder produced. *)
Definition ffmpeg_run (c : ffcmd) : M unit := λ w,
  match env_ffmpeg env c (ext w) with
  | (Some bytes, x) =>
      (Return (),
       MkWorld (db w) (dirs w)
               (match output_file (cmd_stream c) with
                | Some f => <[f := bytes]> (files w)
                | None => files w
                end)
               (runs w ++ [(c, Some bytes)]) x)
  | (None, x) =>
      (Raise FfmpegError, MkWorld (db w) (dirs w) (files w) (runs w ++ [(c, None)]) x)
  end.

(** On success the directory and every file below it are gone. *)
Definition rmtree (d : string) : M unit := λ w,
  match env_rmtree env d (ext w) with
  | (true, x) =>
      (Return (),
       MkWorld (db w) (dirs w ∖ {[d]})
               (filter (λ kv, String.prefix (d +:+ "/") kv.1 = false) (files w))
               (runs w) x)
  | (false, x) => (Raise OSError, MkWorld (db w) (dirs w) (files w) (runs w) x)
  end.

Definition db_find_one (project_id : string) : M (option VideoProject.t) :=
  λ w, (Return (find_one project_id (db w)), w).

Definition db_update_one (project_id : string) (f : VideoProject.t → VideoProject.t) : M unit :=
  λ w, (Return (), MkWorld (update_one project_id f (db w)) (dirs w) (files w) (runs w) (ext w)).

(** [project.duration / len(project.images)] *)
Definition py_truediv (a b : Z) : M Q :=
  if bool_decide (b = 0) then raise ZeroDivisionError
  else mret (inject_Z a / inject_Z b)%Q.

Definition index_error {A} (o : option A) : M A :=
  match o with
  | Some a => mret a
  | None => raise IndexError
  end.

(** [for i, x in enumerate(l)] with the loop state [s] *)
Fixpoint for_enumerate {A St} (body : nat → A → St → M St) (i : nat) (l : list A) (s : St) : M St :=
  match l with
  | [] => mret s
  | x :: l' => s' ← body i x s; for_enumerate body (S i) l' s'
  end.

(** *** [create_ken_burns_effect] *)

(** An exception of a computation without effects is raised. *)
Definition lift {A} (r : result A) : M A :=
  match r with
  | Ok a => mret a
  | Error e => raise e
  end.

(** The graph of lines 83-91 with its [run(quiet=True)]; [d] is the value of
    [int(duration*30)]. *)
Definition ken_burns_cmd (image_path output_path : string) (duration : Q) (d : Z) : ffcmd :=
  let target_width := 1080 in
  let target_height := 1920 in
  FfCmd
    (ff_overwrite_output
       (ff_output
          [ff_filter
             [ff_filter
                [ff_input image_path [("loop", VInt 1); ("t", VFloat duration)]]
                "scale" [VInt target_width; VInt target_height] []]
             "zoompan" []
             [("z", VStr "min(zoom+0.0015,1.5)");
              ("d", VInt d);
              ("x", VStr "iw/2-(iw/zoom/2)");
              ("y", VStr "ih/2-(ih/zoom/2)");
              ("s", VStr (py_str_int target_width +:+ "x" +:+ py_str_int target_height))]]
          output_path
          [("vcodec", VStr "libx264"); ("pix_fmt", VStr "yuv420p"); ("r", VInt 30)]))
    false true.

(** [zoom_end] is never read.  [zoom_start], [pan_x] and [pan_y] enter the
    two strings [zoom_filter] and [pan_filter] only, which the graph does
    not use; computing [zoom_filter] converts to [int] and so can raise, and
    so can [int(duration*30)]: both happen inside the [try]. *)
Definition create_ken_burns_effect (image_path output_path : string) (duration : Q)
    (zoom_start zoom_end pan_x pan_y : pynum) : M bool :=
  try_except
    ('(width, height) ← image_size image_path;
     let target_width := 1080 in
     let target_height := 1920 in
     zoom_filter ← lift (zoom_filter_of width height zoom_start);
     let pan_filter :=
       [Lit "crop="; Num (PyInt target_width); Lit ":"; Num (PyInt target_height);
        Lit ":"; Num pan_x; Lit ":"; Num pan_y] in
     d ← lift (frames_of duration);
     ffmpeg_run (ken_burns_cmd image_path output_path duration d);;
     mret true)
    (λ e, mret false).

(** *** [create_video_from_images] *)

Definition image_path_of (temp_dir : string) (i : nat) : string :=
  os_path_join temp_dir ("image_" +:+ py_str_int (Z.of_nat i) +:+ ".jpg").

Definition clip_path_of (temp_dir : string) (i : nat) : string :=
  os_path_join temp_dir ("clip_" +:+ py_str_int (Z.of_nat i) +:+ ".mp4").

(** [clip_duration = project.duration / len(project.images)] *)
Definition clip_duration (project : VideoProject.t) : M Q :=
  py_truediv (VideoProject.duration project)
             (Z.of_nat (length (VideoProject.images project))).

(** Vary zoom and pan for each image (lines 117-120). *)
Definition zoom_start_of (i : nat) : pynum :=
  PyFloat (SFadd 53 1024 (float_of_Z 1)
             (SFmul 53 1024 (float_of_Z (Z.of_nat i)) (float_of_Q (1 # 10)))).
Definition zoom_end_of (i : nat) : pynum :=
  PyFloat (SFadd 53 1024 (float_of_Q (12 # 10))
             (SFmul 53 1024 (float_of_Z (Z.of_nat i)) (float_of_Q (1 # 10)))).
Definition pan_x_of (i : nat) : pynum := PyInt ((Z.of_nat i mod 2) * 100).
Definition pan_y_of (i : nat) : pynum := PyInt ((Z.of_nat i mod 3) * 50).

(** Lines 105-122: materialise image [i] and render its clip. *)
Definition render_image (project : VideoProject.t) (temp_dir : string)
    (i : nat) (image_b64 : string) : M bool :=
  image_data ← b64decode image_b64;
  let image_path := image_path_of temp_dir i in
  write_file image_path image_data;;
  let clip_path := clip_path_of temp_dir i in
  d ← clip_duration project;
  let zoom_start := zoom_start_of i in
  let zoom_end := zoom_end_of i in
  let pan_x := pan_x_of i in
  let pan_y := pan_y_of i in
  create_ken_burns_effect image_path clip_path d zoom_start zoom_end pan_x pan_y.

(** The body of the loop of line 104. *)
Definition loop_body (project : VideoProject.t) (temp_dir : string)
    (i : nat) (image_b64 : string) (video_clips : list string) : M (list string) :=
  ok ← render_image project temp_dir i image_b64;
  if ok : bool then mret (video_clips ++ [clip_path_of temp_dir i])%list else mret video_clips.

(** Lines 101-123: the clips that were rendered. *)
Definition render_clips (project : VideoProject.t) (temp_dir : string) : M (list string) :=
  for_enumerate (loop_body project temp_dir) 0 (VideoProject.images project) [].

(** Lines 141-148. *)
Definition add_logo (project : VideoProject.t) (temp_dir : string) (s : stream) : M stream :=
  match VideoProject.logo_file project with
  | Some logo_b64 =>
      if bool_decide (logo_b64 = "") then mret s
      else
        logo_data ← b64decode logo_b64;
        let logo_path := os_path_join temp_dir "logo.png" in
        write_file logo_path logo_data;;
        mret (ff_overlay s (ff_input logo_path [])
                [("x", VStr "W-w-20"); ("y", VStr "H-h-20"); ("eval", VStr "init")])
  | None => mret s
  end.

(** Lines 150-160. *)
Definition add_music (project : VideoProject.t) (temp_dir output_path : string)
    (s : stream) : M stream :=
  match VideoProject.music_file project with
  | Some music_b64 =>
      if bool_decide (music_b64 = "")
      then mret (ff_output [s] output_path
                   [("vcodec", VStr "libx264"); ("pix_fmt", VStr "yuv420p")])
      else
        music_data ← b64decode music_b64;
        let music_path := os_path_join temp_dir "music.mp3" in
        write_file music_path music_data;;
        let audio := ff_audio (ff_input music_path []) in
        mret (ff_output [s; audio] output_path
                [("vcodec", VStr "libx264"); ("acodec", VStr "aac");
                 ("pix_fmt", VStr "yuv420p")])
  | None =>
      mret (ff_output [s] output_path
              [("vcodec", VStr "libx264"); ("pix_fmt", VStr "yuv420p")])
  end.

(** Lines 125-166, once the temporary directory exists. *)
Definition compose_and_encode (project : VideoProject.t) (temp_dir output_path : string)
    (video_clips : list string) : M unit :=
  if bool_decide (video_clips = []) then raise (Exception "No video clips created")
  else
    s ← index_error (concat_clips video_clips);
    s ← add_logo project temp_dir s;
    s ← add_music project temp_dir output_path s;
    ffmpeg_run (FfCmd s true true);;
    rmtree temp_dir.

(** The body of the [try] of [create_video_from_images]. *)
Definition pipeline (project : VideoProject.t) (output_path : string) : M bool :=
  temp_dir ← mkdtemp;
  video_clips ← render_clips project temp_dir;
  compose_and_encode project temp_dir output_path video_clips;;
  mret true.

Definition create_video_from_images (project : VideoProject.t) (output_path : string) : M bool :=
  try_except (pipeline project output_path) (λ e, mret false).

(** *** The route [POST /projects/{project_id}/generate] *)

Definition output_filename (project_id resolution : string) : string :=
  project_id +:+ "_" +:+ resolution +:+ ".mp4".

Definition output_path_of (project_id resolution : string) : string :=
  env_output_path env (output_filename project_id resolution).

Definition generate_video (project_id : string) : M response :=
  project_data ← db_find_one project_id;
  match project_data with
  | None => raise (HTTPException 404 "Project not found")
  | Some project =>
      if bool_decide (VideoProject.images project = [])
      then raise (HTTPException 400 "No images uploaded")
      else
        db_update_one project_id (VideoProject.set_status "processing");;
        let output_filename := output_filename project_id (VideoProject.resolution project) in
        let output_path := env_output_path env output_filename in
        try_except
          (success ← create_video_from_images project output_path;
           if success : bool then
             db_update_one project_id
               (λ p, VideoProject.set_status "completed"
                       (VideoProject.set_video_url ("/api/videos/" +:+ output_filename) p));;
             mret (Response "Video generated successfully" ("/api/videos/" +:+ output_filename))
           else
             db_update_one project_id (VideoProject.set_status "failed");;
             raise (HTTPException 500 "Video generation failed"))
          (λ e,
             db_update_one project_id (VideoProject.set_status "failed");;
             raise (HTTPException 500 ("Video generation failed: " +:+ env_str_exn env e)))
  end.
End Server.

(** ** Specification-side definitions *)

(** The outcome of every per-image render of the loop of line 104, in image
    order: the same traversal as [render_clips], keeping the booleans that
    [create_ken_burns_effect] returns instead of the clip paths. *)
Fixpoint render_outcomes {X} (env : Env X) (project : VideoProject.t) (temp_dir : string)
    (i : nat) (imgs : list string) : M (list bool) :=
  match imgs with
  | [] => mret []
  | image_b64 :: imgs' =>
      ok ← render_image env project temp_dir i image_b64;
      oks ← render_outcomes env project temp_dir (S i) imgs';
      mret (ok :: oks)
  end.

(** The clip paths of the renders that succeeded, from index [i] on. *)
Fixpoint rendered_clips (temp_dir : string) (i : nat) (oks : list bool) : list string :=
  match oks with
  | [] => []
  | ok :: oks' =>
      if ok then clip_path_of temp_dir i :: rendered_clips temp_dir (S i) oks'
      else rendered_clips temp_dir (S i) oks'
  end.


(** What one render comes to, read off the answers of the libraries.  The
    render succeeds when PIL reads the image, [int(width*zoom_start)],
    [int(height*zoom_start)] and [int(duration*30)] have a value and the
    encoder succeeds; the clip then holds the encoder's bytes.  The encoder
    is started only when PIL and the three conversions have gone through. *)
Definition render_result {X} (env : Env X) (image_path output_path : string)
    (duration : Q) (zoom_start : pynum) (w : World X) : bool * World X :=
  match env_image_size env image_path (ext w) with
  | (Some (width, height), x) =>
      match zoom_filter_of width height zoom_start, frames_of duration with
      | Ok _, Ok d =>
          let c := ken_burns_cmd image_path output_path duration d in
          match env_ffmpeg env c x with
          | (Some bytes, x') =>
              (true,
               MkWorld (db w) (dirs w) (<[output_path := bytes]> (files w))
                       (runs w ++ [(c, Some bytes)]) x')
          | (None, x') =>
              (false, MkWorld (db w) (dirs w) (files w) (runs w ++ [(c, None)]) x')
          end
      | _, _ => (false, MkWorld (db w) (dirs w) (files w) (runs w) x)
      end
  | (None, x) => (false, MkWorld (db w) (dirs w) (files w) (runs w) x)
  end.

(** What handling image [i] comes to, read off the answers of the libraries:
    decoding and writing the image may raise; once the image is on disk the
    outcome is that of its render. *)
Definition image_result {X} (env : Env X) (project : VideoProject.t) (temp_dir : string)
    (i : nat) (image_b64 : string) (w : World X) : outcome bool * World X :=
  match env_b64decode env image_b64 with
  | None => (Raise BinasciiError, w)
  | Some image_data =>
      match env_write env (image_path_of temp_dir i) image_data (ext w) with
      | (false, x) => (Raise OSError, MkWorld (db w) (dirs w) (files w) (runs w) x)
      | (true, x) =>
          let w1 :=
            MkWorld (db w) (dirs w) (<[image_path_of temp_dir i := image_data]> (files w))
                    (runs w) x in
          let n := Z.of_nat (length (VideoProject.images project)) in
          if bool_decide (n = 0) then (Raise ZeroDivisionError, w1)
          else
            let r :=
              render_result env (image_path_of temp_dir i) (clip_path_of temp_dir i)
                (inject_Z (VideoProject.duration project) / inject_Z n)%Q
                (zoom_start_of i) w1 in
            (Return r.1, r.2)
      end
  end.

(** The loop of line 104 on the answers of the libraries: the successes of
    the renders in image order, or the first exception of a decoding or a
    write. *)
Fixpoint image_outcomes {X} (env : Env X) (project : VideoProject.t) (temp_dir : string)
    (i : nat) (imgs : list string) (w : World X) : outcome (list bool) * World X :=
  match imgs with
  | [] => (Return [], w)
  | image_b64 :: imgs' =>
      match image_result env project temp_dir i image_b64 w with
      | (Return ok, w1) =>
          match image_outcomes env project temp_dir (S i) imgs' w1 with
          | (Return oks, w2) => (Return (ok :: oks), w2)
          | (Raise e, w2) => (Raise e, w2)
          end
      | (Raise e, w1) => (Raise e, w1)
      end
  end.

(** A terminal state of the job life cycle. *)
Definition terminal (status : string) : Prop :=
  status = "completed" ∨ status = "failed".

(** A computation relates the world before to the world after by [R]. *)
Definition stable {X A} (R : relation (World X)) (m : M A) : Prop :=
  ∀ w, R w (m w).2.

(** A computation raises only exceptions in [P]. *)
Definition raises_only {X A} (P : exn → Prop) (m : M (X:=X) A) : Prop :=
  ∀ w e, (m w).1 = Raise e → P e.

(** The collection is left as it was. *)
Definition same_db {X} : relation (World X) := λ w w', db w' = db w.

(** Processes are only ever added to the record of invocations. *)
Definition runs_extended {X} : relation (World X) := λ w w', runs w `prefix_of` runs w'.

(** No directory is removed. *)
Definition dirs_kept {X} : relation (World X) := λ w w', dirs w ⊆ dirs w'.

(** A computation that raises relates the world before to the world it
    raises in by [R]. *)
Definition stable_on_raise {X A} (R : relation (World X)) (m : M A) : Prop :=
  ∀ w e w', m w = (Raise e, w') → R w w'.

(** A concrete world for examples: temporary directories are numbered, every
    base64 string but ["!"] decodes (to itself), writes and removals succeed,
    PIL rejects the files listed in [bad_images] and the encoder fails on the
    outputs listed in [bad_outputs]. *)
Definition example_env (bad_images bad_outputs : list string) : Env nat :=
  MkEnv nat
    (λ n, (Some ("/tmp/tmp" +:+ pretty n), S n))
    (λ s, if bool_decide (s = "!") then None else Some s)
    (λ _ _ n, (true, n))
    (λ path n, (if bool_decide (path ∈ bad_images) then None else Some (640, 480), n))
    (λ c n, (match output_file (cmd_stream c) with
             | Some f => if bool_decide (f ∈ bad_outputs) then None
                         else Some ("video" +:+ pretty n)
             | None => None
             end, S n))
    (λ _ n, (true, n))
    (λ name, "/srv/outputs/" +:+ name)
    (λ e, match e with
          | HTTPException c d => pretty c +:+ ": " +:+ d
          | Exception msg => msg
          | _ => "error"
          end).

Definition example_project (imgs : list string) (logo music : option string) : VideoProject.t :=
  VideoProject.Build "p1" "demo" imgs 30 music logo (8 # 10) "1080p" 0 None "draft".

Definition example_world (p : VideoProject.t) : World nat :=
  MkWorld [p] ∅ ∅ [] 0%nat.

(** ** Reasoning about computations *)

Section Rules.
Context {X : Type}.
Implicit Types w : World X.

Lemma bind_run {A B} (m : M A) (k : A → M B) w :
  (m ≫= k) w =
    match m w with
    | (Return a, w') => k a w'
    | (Raise e, w') => (Raise e, w')
    end.
Proof. reflexivity. Qed.

Lemma ret_run {A} (a : A) w : (mret a : M A) w = (Return a, w).
Proof. reflexivity. Qed.

Lemma bind_Return_inv {A B} (m : M A) (k : A → M B) w b w' :
  (m ≫= k) w = (Return b, w') →
  ∃ a w1, m w = (Return a, w1) ∧ k a w1 = (Return b, w').
Proof.
  rewrite bind_run. destruct (m w) as [[a|e] w1]; [eauto | discriminate].
Qed.

Lemma stable_ret {A} (R : relation (World X)) `{!Reflexive R} (a : A) :
  stable R (mret a : M A).
Proof. intros w. simpl. reflexivity. Qed.

Lemma stable_raise {A} (R : relation (World X)) `{!Reflexive R} e :
  stable R (raise e : M A).
Proof. intros w. simpl. reflexivity. Qed.

Lemma stable_bind {A B} (R : relation (World X)) `{!Transitive R}
    (m : M A) (k : A → M B) :
  stable R m → (∀ a, stable R (k a)) → stable R (m ≫= k).
Proof.
  intros Hm Hk w. rewrite bind_run. specialize (Hm w).
  destruct (m w) as [[a|e] w1]; simpl in *; [|done].
  etrans; [exact Hm | apply Hk].
Qed.

Lemma stable_try_except {A} (R : relation (World X)) `{!Transitive R}
    (m : M A) (h : exn → M A) :
  stable R m → (∀ e, stable R (h e)) → stable R (try_except m h).
Proof.
  intros Hm Hh w. unfold try_except. specialize (Hm w).
  destruct (m w) as [[a|e] w1]; simpl in *; [done|].
  etrans; [exact Hm | apply Hh].
Qed.

Lemma stable_for_enumerate {A St} (R : relation (World X)) `{!PreOrder R}
    (body : nat → A → St → M St) l :
  (∀ i x s, stable R (body i x s)) → ∀ i s, stable R (for_enumerate body i l s).
Proof.
  intros Hb. induction l as [|x l IH]; intros i s; simpl.
  - apply stable_ret, _.
  - apply stable_bind; [apply _ | apply Hb | intros a; apply IH].
Qed.

Lemma raises_only_ret {A} P (a : A) : raises_only (X:=X) P (mret a).
Proof. intros w e; discriminate. Qed.

Lemma raises_only_raise {A} (P : exn → Prop) e : P e → raises_only (X:=X) (A:=A) P (raise e).
Proof. intros HP w e' [= <-]. exact HP. Qed.

Lemma raises_only_bind {A B} P (m : M A) (k : A → M B) :
  raises_only P m → (∀ a, raises_only P (k a)) → raises_only (X:=X) P (m ≫= k).
Proof.
  intros Hm Hk w e. rewrite bind_run. specialize (Hm w).
  destruct (m w) as [[a|e'] w1] eqn:E; simpl in *.
  - apply Hk.
  - intros [= <-]. by apply Hm.
Qed.

Lemma raises_only_try_except {A} P (m : M A) (h : exn → M A) :
  (∀ e, raises_only P (h e)) → raises_only (X:=X) P (try_except m h).
Proof.
  intros Hh w e. unfold try_except.
  destruct (m w) as [[a|e'] w1]; simpl; [discriminate | apply Hh].
Qed.

#[global] Instance same_db_preorder : PreOrder (same_db (X:=X)).
Proof. split; [done | intros w1 w2 w3; unfold same_db; congruence]. Qed.

#[global] Instance dirs_kept_preorder : PreOrder (dirs_kept (X:=X)).
Proof.
  split; [intros w; unfold dirs_kept; done |].
  intros w1 w2 w3; unfold dirs_kept. set_solver.
Qed.

Lemma stable_on_raise_bind {A B} (R : relation (World X)) `{!Transitive R}
    (m : M A) (k : A → M B) :
  stable R m → (∀ a, stable_on_raise R (k a)) → stable_on_raise R (m ≫= k).
Proof.
  intros Hm Hk w e w'. rewrite bind_run. specialize (Hm w).
  destruct (m w) as [[a|e'] w1]; simpl in *.
  - intros E. etrans; [exact Hm | by eapply Hk].
  - by intros [= ? <-].
Qed.

#[global] Instance runs_extended_preorder : PreOrder (runs_extended (X:=X)).
Proof.
  split; [intros w; unfold runs_extended; done |].
  intros w1 w2 w3; unfold runs_extended. apply transitivity.
Qed.
End Rules.

(** ** The collection *)

Lemma find_one_update_one pid f d :
  (∀ p, VideoProject.id (f p) = VideoProject.id p) →
  find_one pid (update_one pid f d) = f <$> find_one pid d.
Proof.
  intros Hid. induction d as [|p d IH]; simpl; [done|].
  case_bool_decide as E; simpl.
  - rewrite Hid. by rewrite bool_decide_eq_true_2.
  - by rewrite bool_decide_eq_false_2.
Qed.

(** ** Frame properties of the pipeline *)

Create HintDb stable.

Section Frames.
Context {X : Type} (env : Env X).

Section Any.
(** Every library call of the pipeline but [rmtree] respects a relation
    that holds whenever the collection is kept, processes are only added to
    the record and directories are only added; [rmtree] respects one that
    also allows a directory to go. *)
Variable R : relation (World X).
Context `{!PreOrder R}.
Hypothesis R_step : ∀ w ds fs rs x,
  runs w `prefix_of` rs → dirs w ⊆ ds → R w (MkWorld (db w) ds fs rs x).
Hypothesis R_remove : ∀ w d fs x,
  R w (MkWorld (db w) (dirs w ∖ {[d]}) fs (runs w) x).

Local Hint Resolve stable_ret stable_raise : stable.
Local Hint Extern 2 (stable _ (_ ≫= _)) => apply stable_bind; [apply _ | | intros ?] : stable.
Local Hint Extern 2 (stable _ (try_except _ _)) =>
  apply stable_try_except; [apply _ | | intros ?] : stable.
Local Hint Extern 1 (Reflexive _) => apply _ : stable.

Lemma stable_mkdtemp : stable R (mkdtemp env).
Proof.
  intros w. unfold mkdtemp. destruct (env_mkdtemp env (ext w)) as [[d|] x];
    simpl; (apply R_step; [done | try done]). apply union_subseteq_r.
Qed.

Lemma stable_b64decode s : stable R (b64decode env s).
Proof. unfold b64decode. destruct (env_b64decode env s); auto with stable. Qed.

Lemma stable_write_file path data : stable R (write_file env path data).
Proof.
  intros w. unfold write_file. destruct (env_write env path data (ext w)) as [[|] x];
    simpl; by apply R_step.
Qed.

Lemma stable_image_size path : stable R (image_size env path).
Proof.
  intros w. unfold image_size. destruct (env_image_size env path (ext w)) as [[wh|] x];
    simpl; by apply R_step.
Qed.

Lemma stable_ffmpeg_run c : stable R (ffmpeg_run env c).
Proof.
  intros w. unfold ffmpeg_run. destruct (env_ffmpeg env c (ext w)) as [[b|] x];
    simpl; (apply R_step; [by apply prefix_app_r | done]).
Qed.

Lemma stable_rmtree d : stable R (rmtree env d).
Proof.
  intros w. unfold rmtree. destruct (env_rmtree env d (ext w)) as [[|] x];
    simpl; [apply R_remove | by apply R_step].
Qed.

Lemma stable_py_truediv a b : stable R (py_truediv (X:=X) a b).
Proof. unfold py_truediv. case_bool_decide; auto with stable. Qed.

Lemma stable_index_error {A} (o : option A) : stable R (index_error (X:=X) o).
Proof. destruct o; simpl; auto with stable. Qed.

Lemma stable_lift {A} (r : result A) : stable R (lift (X:=X) r).
Proof. destruct r; simpl; auto with stable. Qed.

Local Hint Resolve stable_mkdtemp stable_b64decode stable_write_file stable_image_size
  stable_ffmpeg_run stable_rmtree stable_py_truediv stable_index_error stable_lift : stable.

Lemma stable_create_ken_burns_effect img out d zs ze px py :
  stable R (create_ken_burns_effect env img out d zs ze px py).
Proof.
  unfold create_ken_burns_effect.
  apply stable_try_except; [apply _ | | intros ?; auto with stable].
  apply stable_bind; [apply _ | auto with stable |].
  intros [wd ht]. auto with stable.
Qed.

Lemma stable_render_image p tmp i img : stable R (render_image env p tmp i img).
Proof.
  unfold render_image, clip_duration.
  auto 10 using stable_create_ken_burns_effect with stable.
Qed.

Lemma stable_render_clips p tmp : stable R (render_clips env p tmp).
Proof.
  unfold render_clips. apply stable_for_enumerate; [apply _|].
  intros i x s. unfold loop_body.
  apply stable_bind; [apply _ | apply stable_render_image |].
  intros [|]; auto with stable.
Qed.

Lemma stable_add_logo p tmp s : stable R (add_logo env p tmp s).
Proof.
  unfold add_logo. destruct (VideoProject.logo_file p); [case_bool_decide|];
    auto 10 with stable.
Qed.

Lemma stable_add_music p tmp out s : stable R (add_music env p tmp out s).
Proof.
  unfold add_music. destruct (VideoProject.music_file p); [case_bool_decide|];
    auto 10 with stable.
Qed.

Lemma stable_compose_and_encode p tmp out clips :
  stable R (compose_and_encode env p tmp out clips).
Proof.
  unfold compose_and_encode. case_bool_decide;
    auto 10 using stable_add_logo, stable_add_music with stable.
Qed.

Lemma stable_create_video_from_images p out :
  stable R (create_video_from_images env p out).
Proof.
  unfold create_video_from_images, pipeline.
  auto 10 using stable_render_clips, stable_compose_and_encode with stable.
Qed.
End Any.

Lemma create_video_from_images_same_db p out :
  stable same_db (create_video_from_images env p out).
Proof. apply stable_create_video_from_images; [apply _ | done | by unfold same_db]. Qed.

Lemma runs_extended_step (w : World X) ds fs rs x :
  runs w `prefix_of` rs → dirs w ⊆ ds → runs_extended w (MkWorld (db w) ds fs rs x).
Proof. done. Qed.

Lemma dirs_kept_step (w : World X) ds fs rs x :
  runs w `prefix_of` rs → dirs w ⊆ ds → dirs_kept w (MkWorld (db w) ds fs rs x).
Proof. done. Qed.

(** [create_video_from_images] catches every exception. *)
Lemma create_video_from_images_returns p out w :
  ∃ b, (create_video_from_images env p out w).1 = Return b.
Proof.
  unfold create_video_from_images, try_except.
  destruct (pipeline env p out w) as [[b|e] w1]; simpl; eauto.
Qed.

End Frames.

(** ** The job life cycle *)

Section Lifecycle.
Context {X : Type} (env : Env X).

(** What [generate_video] does once the project is found with images:
    the three ways out of lines 284-319. *)
Lemma generate_video_run (w : World X) pid p :
  find_one pid (db w) = Some p →
  VideoProject.images p ≠ [] →
  let w1 := MkWorld (update_one pid (VideoProject.set_status "processing") (db w))
                    (dirs w) (files w) (runs w) (ext w) in
  let name := output_filename pid (VideoProject.resolution p) in
  let r := create_video_from_images env p (env_output_path env name) w1 in
  generate_video env pid w =
    match r.1 with
    | Return true =>
        (Return (Response "Video generated successfully" ("/api/videos/" +:+ name)),
         MkWorld (update_one pid
                    (λ q, VideoProject.set_status "completed"
                            (VideoProject.set_video_url ("/api/videos/" +:+ name) q))
                    (db r.2))
                 (dirs r.2) (files r.2) (runs r.2) (ext r.2))
    | Return false =>
        (Raise (HTTPException 500
                  ("Video generation failed: " +:+
                   env_str_exn env (HTTPException 500 "Video generation failed"))),
         MkWorld (update_one pid (VideoProject.set_status "failed")
                    (update_one pid (VideoProject.set_status "failed") (db r.2)))
                 (dirs r.2) (files r.2) (runs r.2) (ext r.2))
    | Raise e =>
        (Raise (HTTPException 500 ("Video generation failed: " +:+ env_str_exn env e)),
         MkWorld (update_one pid (VideoProject.set_status "failed") (db r.2))
                 (dirs r.2) (files r.2) (runs r.2) (ext r.2))
    end.
Proof.
  intros Hfind Himgs w1 name r.
  unfold generate_video. rewrite bind_run. unfold db_find_one at 1. rewrite Hfind.
  rewrite bool_decide_eq_false_2 by done.
  rewrite bind_run. unfold db_update_one at 1. fold w1.
  unfold try_except. rewrite bind_run. fold name. fold r.
  destruct r as [[[|]|e] w2]; reflexivity.
Qed.

(** C1. After [generate_video] returns or raises on a project with a
    non-empty image list, the stored status of the project is terminal,
    [completed] when the call returned and [failed] when it raised, and
    never [processing]. *)
Theorem generate_video_terminal_status (w : World X) pid p :
  find_one pid (db w) = Some p →
  VideoProject.images p ≠ [] →
  ∃ p', find_one pid (db (generate_video env pid w).2) = Some p' ∧
        terminal (VideoProject.status p') ∧
        VideoProject.status p' ≠ "processing" ∧
        match (generate_video env pid w).1 with
        | Return _ => VideoProject.status p' = "completed"
        | Raise _ => VideoProject.status p' = "failed"
        end.
Proof.
  intros Hfind Himgs. rewrite (generate_video_run w pid p Hfind Himgs).
  set (w1 := MkWorld _ _ _ _ _).
  set (out := env_output_path env _).
  pose proof (create_video_from_images_same_db env p out w1) as Hdb.
  destruct (create_video_from_images_returns env p out w1) as [b Hb].
  unfold same_db in Hdb.
  destruct (create_video_from_images env p out w1) as [r w2]. simpl in *. subst r.
  rewrite Hdb. unfold w1. simpl.
  destruct b; simpl;
    rewrite !find_one_update_one, Hfind by done; simpl;
    (eexists; split; [reflexivity|]); unfold terminal; simpl; intuition congruence.
Qed.

(** Lines 281-282: without images the route raises before it updates
    anything. *)
Lemma generate_video_rejects (w : World X) pid p :
  find_one pid (db w) = Some p →
  VideoProject.images p = [] →
  generate_video env pid w = (Raise (HTTPException 400 "No images uploaded"), w).
Proof.
  intros Hfind Himgs.
  unfold generate_video. rewrite bind_run. unfold db_find_one at 1. rewrite Hfind.
  by rewrite bool_decide_eq_true_2.
Qed.

(** C2. On a project whose image list is empty [generate_video] raises the
    validation error (status 400) and leaves the whole world, and so the
    project's status and every other field, as it was: the status was never
    set to [processing], nothing was written and no process was run. *)
Theorem generate_video_no_images (w : World X) pid p :
  find_one pid (db w) = Some p →
  VideoProject.images p = [] →
  generate_video env pid w = (Raise (HTTPException 400 "No images uploaded"), w) ∧
  find_one pid (db (generate_video env pid w).2) = Some p ∧
  runs (generate_video env pid w).2 = runs w.
Proof.
  intros Hfind Himgs. by rewrite (generate_video_rejects w pid p Hfind Himgs).
Qed.
End Lifecycle.

(** ** Rendering the clips *)

Lemma filter_fmap {A B} (f : A → B) (P : B → Prop) `{!∀ y, Decision (P y)} (l : list A) :
  filter P (f <$> l) = f <$> filter (λ x, P (f x)) l.
Proof.
  induction l as [|x l IH]; [done|].
  rewrite fmap_cons, !filter_cons. destruct (decide (P (f x))); by rewrite ?fmap_cons, IH.
Qed.

(** [rendered_clips] lists, in index order, the clip of every index whose
    outcome is [true]. *)
Lemma rendered_clips_filter tmp oks i :
  rendered_clips tmp i oks =
    (λ j, clip_path_of tmp (i + j)) <$>
      filter (λ j, oks !! j = Some true) (seq 0 (length oks)).
Proof.
  revert i. induction oks as [|ok oks IH]; intros i; [done|].
  cbn [rendered_clips length seq]. rewrite <- fmap_S_seq, filter_cons, filter_fmap.
  rewrite IH.
  assert (((λ j, clip_path_of tmp (S i + j)) <$>
             filter (λ j, oks !! j = Some true) (seq 0 (length oks))) =
          ((λ j, clip_path_of tmp (i + j)) <$>
             (S <$> filter (λ j, (ok :: oks) !! S j = Some true) (seq 0 (length oks))))) as Hsh.
  { rewrite <- list_fmap_compose. apply list_fmap_ext. intros k j _. simpl.
    by rewrite Nat.add_succ_r. }
  destruct ok.
  - rewrite decide_True by done. rewrite fmap_cons, Nat.add_0_r. by rewrite Hsh.
  - rewrite decide_False by done. by rewrite Hsh.
Qed.

Lemma rendered_clips_length tmp i oks :
  (length (rendered_clips tmp i oks) ≤ length oks)%nat.
Proof.
  revert i. induction oks as [|[|] oks IH]; intros i; simpl; [lia| |];
    specialize (IH (S i)); lia.
Qed.

Lemma rendered_clips_lt tmp i oks :
  (length (rendered_clips tmp i oks) < length oks)%nat ↔ ∃ j, oks !! j = Some false.
Proof.
  revert i. induction oks as [|ok oks IH]; intros i; simpl.
  - split; [lia | intros [j Hj]; by rewrite lookup_nil in Hj].
  - pose proof (rendered_clips_length tmp (S i) oks) as Hle.
    destruct ok; simpl.
    + rewrite <- Nat.succ_lt_mono, IH. split.
      * intros [j Hj]. by exists (S j).
      * intros [[|j] Hj]; [done | by exists j].
    + split; [intros _; by exists 0%nat | lia].
Qed.

Lemma rendered_clips_nil tmp i oks :
  rendered_clips tmp i oks = [] ↔ ∀ j, oks !! j ≠ Some true.
Proof.
  revert i. induction oks as [|ok oks IH]; intros i; simpl.
  - split; [intros _ j; by rewrite lookup_nil | done].
  - destruct ok.
    + split; [done | intros H; by destruct (H 0%nat)].
    + rewrite IH. split.
      * intros H [|j]; [done | apply H].
      * intros H j. apply (H (S j)).
Qed.

Section Raises.
Context {X : Type} (env : Env X).
Variable P : exn → Prop.

Lemma raises_only_b64decode s : P BinasciiError → raises_only (X:=X) P (b64decode env s).
Proof.
  intros HP. unfold b64decode. destruct (env_b64decode env s);
    [apply raises_only_ret | by apply raises_only_raise].
Qed.

Lemma raises_only_write_file path data : P OSError → raises_only P (write_file env path data).
Proof.
  intros HP w e. unfold write_file. destruct (env_write env path data (ext w)) as [[|] x];
    simpl; [done | by intros [= <-]].
Qed.

Lemma raises_only_ffmpeg_run c : P FfmpegError → raises_only P (ffmpeg_run env c).
Proof.
  intros HP w e. unfold ffmpeg_run. destruct (env_ffmpeg env c (ext w)) as [[b|] x];
    simpl; [done | by intros [= <-]].
Qed.

Lemma raises_only_rmtree d : P OSError → raises_only P (rmtree env d).
Proof.
  intros HP w e. unfold rmtree. destruct (env_rmtree env d (ext w)) as [[|] x];
    simpl; [done | by intros [= <-]].
Qed.

Lemma raises_only_index_error {A} (o : option A) :
  P IndexError → raises_only (X:=X) P (index_error o).
Proof.
  intros HP. destruct o; [apply raises_only_ret | by apply raises_only_raise].
Qed.

(** A render never raises: [create_ken_burns_effect] turns every failure
    into the result [False]. *)
Lemma raises_only_create_ken_burns_effect img out d zs ze px py :
  raises_only P (create_ken_burns_effect env img out d zs ze px py).
Proof. apply raises_only_try_except. intros e. apply raises_only_ret. Qed.

Lemma raises_only_render_image p tmp i img :
  VideoProject.images p ≠ [] →
  P BinasciiError → P OSError →
  raises_only P (render_image env p tmp i img).
Proof.
  intros Hne HB HO. unfold render_image.
  apply raises_only_bind; [by apply raises_only_b64decode | intros data].
  apply raises_only_bind; [by apply raises_only_write_file | intros _].
  apply raises_only_bind.
  - unfold clip_duration, py_truediv. rewrite bool_decide_eq_false_2.
    + apply raises_only_ret.
    + destruct (VideoProject.images p); [done | simpl; lia].
  - intros d. apply raises_only_create_ken_burns_effect.
Qed.

Lemma raises_only_render_outcomes p tmp l i :
  VideoProject.images p ≠ [] →
  P BinasciiError → P OSError →
  raises_only P (render_outcomes env p tmp i l).
Proof.
  intros Hne HB HO. revert i. induction l as [|img l IH]; intros i; simpl.
  - apply raises_only_ret.
  - apply raises_only_bind; [by apply raises_only_render_image | intros ok].
    apply raises_only_bind; [apply IH | intros oks; apply raises_only_ret].
Qed.

Lemma raises_only_add_logo p tmp s :
  P BinasciiError → P OSError → raises_only P (add_logo env p tmp s).
Proof.
  intros HB HO. unfold add_logo.
  destruct (VideoProject.logo_file p); [case_bool_decide|]; try apply raises_only_ret.
  apply raises_only_bind; [by apply raises_only_b64decode | intros data].
  apply raises_only_bind; [by apply raises_only_write_file | intros _].
  apply raises_only_ret.
Qed.

Lemma raises_only_add_music p tmp out s :
  P BinasciiError → P OSError → raises_only P (add_music env p tmp out s).
Proof.
  intros HB HO. unfold add_music.
  destruct (VideoProject.music_file p); [case_bool_decide|]; try apply raises_only_ret.
  apply raises_only_bind; [by apply raises_only_b64decode | intros data].
  apply raises_only_bind; [by apply raises_only_write_file | intros _].
  apply raises_only_ret.
Qed.

(** With at least one clip, composition and encoding raise nothing but the
    failures of their own library calls. *)
Lemma raises_only_compose_and_encode p tmp out clips :
  clips ≠ [] →
  P BinasciiError → P OSError → P FfmpegError → P IndexError →
  raises_only P (compose_and_encode env p tmp out clips).
Proof.
  intros Hne HB HO HF HI. unfold compose_and_encode.
  rewrite bool_decide_eq_false_2 by done.
  apply raises_only_bind; [by apply raises_only_index_error | intros s].
  apply raises_only_bind; [by apply raises_only_add_logo | intros s1].
  apply raises_only_bind; [by apply raises_only_add_music | intros s2].
  apply raises_only_bind; [by apply raises_only_ffmpeg_run | intros _].
  by apply raises_only_rmtree.
Qed.
End Raises.

Section Clips.
Context {X : Type} (env : Env X).

(** The loop of line 104 appends, to the clips it already has, the clips
    of the renders that succeed; it stops where a render's inputs cannot be
    materialised. *)
Lemma for_enumerate_loop_body p tmp l i acc (w : World X) :
  for_enumerate (loop_body env p tmp) i l acc w =
    match render_outcomes env p tmp i l w with
    | (Return oks, w1) => (Return (acc ++ rendered_clips tmp i oks)%list, w1)
    | (Raise e, w1) => (Raise e, w1)
    end.
Proof.
  revert i acc w. induction l as [|img l IH]; intros i acc w; simpl.
  - by rewrite ret_run, app_nil_r.
  - rewrite !bind_run. unfold loop_body at 1. rewrite bind_run.
    destruct (render_image env p tmp i img w) as [[ok|e] w1]; [|done].
    destruct ok; rewrite ret_run, IH, bind_run;
      destruct (render_outcomes env p tmp (S i) l w1) as [[oks|e] w2];
      rewrite ?ret_run; try done.
    cbn [rendered_clips]. by rewrite <- app_assoc.
Qed.

Lemma render_outcomes_length p tmp l i (w : World X) oks w1 :
  render_outcomes env p tmp i l w = (Return oks, w1) → length oks = length l.
Proof.
  revert i w oks w1. induction l as [|img l IH]; intros i w oks w1; simpl.
  - rewrite ret_run. by intros [= <- ?].
  - rewrite bind_run. destruct (render_image env p tmp i img w) as [[ok|e] w2]; [|done].
    rewrite bind_run.
    destruct (render_outcomes env p tmp (S i) l w2) as [[oks'|e] w3] eqn:E; [|done].
    rewrite ret_run. intros [= <- ?]. simpl. f_equal. by eapply IH.
Qed.

(** [create_ken_burns_effect] returns what [render_result] reads off the
    libraries: every exception of its body is turned into [False]. *)
Lemma create_ken_burns_effect_run img out d zs ze px py (w : World X) :
  create_ken_burns_effect env img out d zs ze px py w =
    (Return (render_result env img out d zs w).1, (render_result env img out d zs w).2).
Proof.
  unfold create_ken_burns_effect, try_except, render_result.
  rewrite bind_run. unfold image_size.
  destruct (env_image_size env img (ext w)) as [[[wd ht]|] x]; [|done].
  rewrite bind_run.
  destruct (zoom_filter_of wd ht zs) as [zf|e]; [|done].
  simpl. rewrite bind_run.
  destruct (frames_of d) as [n|e]; [|done].
  simpl. rewrite bind_run. unfold ffmpeg_run. simpl.
  by destruct (env_ffmpeg env _ x) as [[b|] x'].
Qed.

(** The body of the loop up to the render, on the answers of the libraries. *)
Lemma render_image_run p tmp i img (w : World X) :
  render_image env p tmp i img w = image_result env p tmp i img w.
Proof.
  unfold render_image, image_result. rewrite bind_run. unfold b64decode.
  destruct (env_b64decode env img) as [data|]; [|done].
  rewrite ret_run, bind_run. unfold write_file at 1.
  destruct (env_write env _ data (ext w)) as [[|] x]; [|done].
  rewrite bind_run. unfold clip_duration, py_truediv.
  case_bool_decide; [done|].
  rewrite ret_run. apply create_ken_burns_effect_run.
Qed.

Lemma render_outcomes_run p tmp l i (w : World X) :
  render_outcomes env p tmp i l w = image_outcomes env p tmp i l w.
Proof.
  revert i w. induction l as [|img l IH]; intros i w; [done|].
  simpl. rewrite bind_run, render_image_run.
  destruct (image_result env p tmp i img w) as [[ok|e] w1]; [|done].
  rewrite bind_run, IH.
  by destruct (image_outcomes env p tmp (S i) l w1) as [[oks|e] w2].
Qed.

(** C3. A render failure is absorbed.  A render is the call of
    [create_ken_burns_effect] on one image; it never raises, and it returns
    true exactly when PIL reads the image, the integer conversions have a
    value and ffmpeg encodes the clip ([render_result]).  Handling an image
    ([image_result]) raises only when the image cannot be decoded or
    written, and otherwise returns the success of its render; the outcomes
    of the loop are those of its images in order ([image_outcomes]).
    Whatever the world, the loop over the images either cannot materialise
    some image (a decoding or a write error, never a render error), or it
    hands to composition exactly the clips of the images whose render
    returned true, in index order; so at most as many clips as images,
    fewer exactly when some render failed; and composition then fails with
    "No video clips created" exactly when no render succeeded. *)
Theorem clip_render_failures_absorbed (p : VideoProject.t) (tmp : string) (w : World X) :
  (∀ img out d zs ze px py w0,
     create_ken_burns_effect env img out d zs ze px py w0 =
       (Return (render_result env img out d zs w0).1, (render_result env img out d zs w0).2)) ∧
  (∀ i image_b64 w0,
     render_image env p tmp i image_b64 w0 = image_result env p tmp i image_b64 w0) ∧
  render_outcomes env p tmp 0 (VideoProject.images p) w
    = image_outcomes env p tmp 0 (VideoProject.images p) w ∧
  let n := length (VideoProject.images p) in
  match render_outcomes env p tmp 0 (VideoProject.images p) w with
  | (Return oks, w1) =>
      let clips :=
        clip_path_of tmp <$> filter (λ i, oks !! i = Some true) (seq 0 n) in
      length oks = n ∧
      render_clips env p tmp w = (Return clips, w1) ∧
      (length clips ≤ n)%nat ∧
      ((length clips < n)%nat ↔ ∃ i, oks !! i = Some false) ∧
      ∀ out,
        (compose_and_encode env p tmp out clips w1).1
          = Raise (Exception "No video clips created")
        ↔ ∀ i, oks !! i ≠ Some true
  | (Raise e, w1) =>
      render_clips env p tmp w = (Raise e, w1) ∧
      (e = BinasciiError ∨ e = OSError)
  end.
Proof.
  split; [intros; apply create_ken_burns_effect_run|].
  split; [intros; apply render_image_run|].
  split; [apply render_outcomes_run|].
  intros n. unfold render_clips. rewrite for_enumerate_loop_body.
  destruct (render_outcomes env p tmp 0 (VideoProject.images p) w) as [[oks|e] w1] eqn:E.
  - pose proof (render_outcomes_length _ _ _ _ _ _ _ E) as Hlen. fold n in Hlen.
    assert (clip_path_of tmp <$> filter (λ i, oks !! i = Some true) (seq 0 n)
            = rendered_clips tmp 0 oks) as Hclips.
    { by rewrite rendered_clips_filter, Hlen. }
    cbv zeta. rewrite Hclips. simpl.
    split; [done|]. split; [done|].
    rewrite <- Hlen.
    split; [apply rendered_clips_length|].
    split; [apply rendered_clips_lt|].
    intros out. rewrite <- rendered_clips_nil with (tmp := tmp) (i := 0%nat).
    split.
    + intros Hraise. destruct (decide (rendered_clips tmp 0 oks = [])) as [|Hne]; [done|].
      exfalso.
      by apply (raises_only_compose_and_encode env
               (λ e, e ≠ Exception "No video clips created") p tmp out _ Hne) in Hraise.
    + intros ->. reflexivity.
  - split; [done|].
    destruct (decide (VideoProject.images p = [])) as [Hnil|Hne].
    + rewrite Hnil in E. discriminate.
    + apply (raises_only_render_outcomes env (λ e, e = BinasciiError ∨ e = OSError)
               p tmp (VideoProject.images p) 0 Hne (or_introl eq_refl)
               (or_intror eq_refl) w).
      by rewrite E.
Qed.
End Clips.

(** ** Clip durations *)

Lemma sum_constant (q : Q) {A} (l : list A) :
  (fold_right Qplus 0 (map (λ _, q) l) == inject_Z (Z.of_nat (length l)) * q)%Q.
Proof.
  induction l as [|x l IH].
  - simpl. ring.
  - cbn [map fold_right length]. rewrite IH, Nat2Z.inj_succ.
    unfold Z.succ. rewrite inject_Z_plus. ring.
Qed.

Section Durations.
Context {X : Type} (env : Env X).

(** C5. On a project with images every image's clip is assigned the same
    duration, [project.duration] divided by the number of images: this is
    the value [clip_duration] computes and the value [render_image] passes
    to [create_ken_burns_effect] for every index, and the durations
    assigned to the images add up to [project.duration]. *)
Theorem clip_duration_equal_split (p : VideoProject.t) :
  VideoProject.images p ≠ [] →
  let n := Z.of_nat (length (VideoProject.images p)) in
  let q := (inject_Z (VideoProject.duration p) / inject_Z n)%Q in
  (∀ w : World X, clip_duration p w = (Return q, w)) ∧
  (∀ tmp i img (w : World X),
     render_image env p tmp i img w =
       (image_data ← b64decode env img;
        write_file env (image_path_of tmp i) image_data;;
        create_ken_burns_effect env (image_path_of tmp i) (clip_path_of tmp i) q
          (zoom_start_of i) (zoom_end_of i) (pan_x_of i) (pan_y_of i)) w) ∧
  (fold_right Qplus 0 (map (λ _, q) (VideoProject.images p))
     == inject_Z (VideoProject.duration p))%Q.
Proof.
  intros Hne n q.
  assert (n ≠ 0) as Hn.
  { unfold n. destruct (VideoProject.images p); [done | simpl; lia]. }
  assert (clip_duration (X:=X) p = mret q) as Hq.
  { unfold clip_duration, py_truediv. fold n. by rewrite bool_decide_eq_false_2. }
  split; [|split].
  - intros w. by rewrite Hq.
  - intros tmp i img w. unfold render_image. by rewrite Hq.
  - rewrite sum_constant. fold n. unfold q. apply Qmult_div_r.
    intros H. apply Hn. revert H. unfold Qeq. simpl. lia.
Qed.
End Durations.

(** ** Composition *)

Lemma fold_left_fmap {A B C} (f : A → C → A) (g : B → C) (l : list B) (a : A) :
  fold_left f (g <$> l) a = fold_left (λ s x, f s (g x)) l a.
Proof. revert a. induction l as [|x l IH]; intros a; simpl; [done | apply IH]. Qed.

(** The indexed loop over [range(len(pre), len(pre) + len(rest))] fades the
    remaining inputs in, one after the other. *)
Lemma xfade_loop_fold (rest pre : list stream) (s : stream) :
  xfade_loop (pre ++ rest) (seq (length pre) (length rest)) s = Some (fold_left xfade rest s).
Proof.
  revert pre s. induction rest as [|c rest IH]; intros pre s; [done|].
  cbn [length seq xfade_loop fold_left]. rewrite list_lookup_middle by done.
  specialize (IH (pre ++ [c]) (xfade s c)).
  rewrite <- app_assoc, length_app in IH. simpl in IH.
  by rewrite Nat.add_1_r in IH.
Qed.

Lemma concat_clips_chain (clips : list string) : concat_clips clips = crossfade_chain clips.
Proof.
  destruct clips as [|c [|c' cs]]; [done | done |].
  unfold concat_clips, crossfade_chain.
  rewrite bool_decide_eq_false_2 by (simpl; lia).
  cbn [map lookup list_lookup length].
  replace (S (S (length (map (λ clip, ff_input clip []) cs))) - 1)%nat
    with (S (length (map (λ clip, ff_input clip []) cs))) by lia.
  change (ff_input c [] :: ff_input c' [] :: map (λ clip, ff_input clip []) cs)
    with ([ff_input c []] ++ ((λ clip, ff_input clip []) <$> (c' :: cs))).
  replace (S (length (map (λ clip, ff_input clip []) cs)))
    with (length ((λ clip, ff_input clip []) <$> (c' :: cs))) by done.
  change 1%nat with (length [ff_input c []]) at 1.
  by rewrite xfade_loop_fold, fold_left_fmap.
Qed.

Lemma filter_chain_fold_xfade (cs : list string) (s : stream) :
  filter_chain (fold_left (λ s c', xfade s (ff_input c' [])) cs s) =
    (filter_chain s ++
     replicate (length cs)
       ("xfade", [], [("transition", VStr "fade"); ("duration", VFloat (1 # 2))]))%list.
Proof.
  revert s. induction cs as [|c cs IH]; intros s; simpl.
  - by rewrite app_nil_r.
  - rewrite IH. simpl. by rewrite <- app_assoc.
Qed.

(** C6. One clip goes to the output stage as it is, with no filter applied;
    with more clips the composition is the left-to-right chain of cross-fades
    of the specification: every further clip is faded onto the chain of the
    clips before it by an [xfade] filter with transition [fade] and duration
    0.5, one filter per adjacent pair. *)
Theorem concat_clips_crossfade (clips : list string) (c : string) :
  concat_clips [c] = Some (ff_input c []) ∧
  concat_clips clips = crossfade_chain clips ∧
  match concat_clips clips with
  | Some s =>
      filter_chain s =
        replicate (length clips - 1)
          ("xfade", [], [("transition", VStr "fade"); ("duration", VFloat (1 # 2))]) ∧
      concat_clips (clips ++ [c]) =
        Some (ff_filter [s; ff_input c []] "xfade" []
                [("transition", VStr "fade"); ("duration", VFloat (1 # 2))])
  | None => clips = []
  end.
Proof.
  split; [done|]. split; [apply concat_clips_chain|].
  rewrite !concat_clips_chain. destruct clips as [|c0 cs]; [done|].
  cbn [crossfade_chain app]. split.
  - rewrite filter_chain_fold_xfade. simpl. by rewrite Nat.sub_0_r.
  - by rewrite fold_left_app.
Qed.

(** ** What the renders do not depend on *)

Section Independence.
Context {X : Type} (env : Env X).




Lemma add_logo_run p tmp s (w : World X) :
  match VideoProject.logo_file p with
  | Some logo_b64 =>
      if bool_decide (logo_b64 = "") then add_logo env p tmp s w = (Return s, w)
      else
        match add_logo env p tmp s w with
        | (Return s', _) =>
            s' = ff_overlay s (ff_input (os_path_join tmp "logo.png") [])
                   [("x", VStr "W-w-20"); ("y", VStr "H-h-20"); ("eval", VStr "init")]
        | (Raise e, _) => e = BinasciiError ∨ e = OSError
        end
  | None => add_logo env p tmp s w = (Return s, w)
  end.
Proof.
  unfold add_logo. destruct (VideoProject.logo_file p) as [logo|]; [|done].
  case_bool_decide; [done|].
  rewrite bind_run. unfold b64decode. destruct (env_b64decode env logo) as [data|];
    [|by left].
  rewrite ret_run, bind_run. unfold write_file at 1.
  destruct (env_write env _ data (ext w)) as [[|] x]; [done | by right].
Qed.

(** C9. The pipeline does not read [logo_opacity]: a project and the same
    project with any other opacity give the same result, the same commands
    and the same world.  When a logo is present the stream is overlaid with
    it at [x = W-w-20], [y = H-h-20], with no other option, so for the
    whole video; the only ways this step fails are the decoding and the
    writing of the logo. *)
Theorem logo_overlay_ignores_opacity
    (p : VideoProject.t) (o : Q) (out tmp : string) (s : stream) (w : World X) :
  create_video_from_images env (VideoProject.set_logo_opacity o p) out w
    = create_video_from_images env p out w ∧
  match VideoProject.logo_file p with
  | Some logo_b64 =>
      if bool_decide (logo_b64 = "") then add_logo env p tmp s w = (Return s, w)
      else
        match add_logo env p tmp s w with
        | (Return s', _) =>
            s' = ff_overlay s (ff_input (os_path_join tmp "logo.png") [])
                   [("x", VStr "W-w-20"); ("y", VStr "H-h-20"); ("eval", VStr "init")]
        | (Raise e, _) => e = BinasciiError ∨ e = OSError
        end
  | None => add_logo env p tmp s w = (Return s, w)
  end.
Proof. split; [reflexivity | apply add_logo_run]. Qed.
End Independence.

(** ** The output file *)

Section Output.
Context {X : Type} (env : Env X).

Lemma stable_eq {A} (R : relation (World X)) (m : M A) w r w' :
  stable R m → m w = (r, w') → R w w'.
Proof. intros Hm E. specialize (Hm w). by rewrite E in Hm. Qed.

Lemma add_music_output p tmp out s (w : World X) s' w' :
  add_music env p tmp out s w = (Return s', w') →
  ∃ ins kw, s' = ff_output ins out kw.
Proof.
  unfold add_music. destruct (VideoProject.music_file p) as [music|].
  - case_bool_decide.
    + rewrite ret_run. intros [= <- ?]. eauto.
    + intros (data & w1 & _ & E)%bind_Return_inv.
      apply bind_Return_inv in E as ([] & w2 & _ & E).
      rewrite ret_run in E. injection E as <- ?. eauto.
  - rewrite ret_run. intros [= <- ?]. eauto.
Qed.

Lemma ffmpeg_run_Return c (w w' : World X) :
  ffmpeg_run env c w = (Return (), w') →
  ∃ bytes, runs w' = runs w ++ [(c, Some bytes)] ∧
           dirs w' = dirs w ∧
           ∀ f, output_file (cmd_stream c) = Some f → files w' = <[f := bytes]> (files w).
Proof.
  unfold ffmpeg_run. destruct (env_ffmpeg env c (ext w)) as [[b|] x]; [|done].
  intros [= <-]. exists b. simpl. split; [done|]. split; [done|]. by intros f ->.
Qed.

Lemma rmtree_Return d (w w' : World X) :
  rmtree env d w = (Return (), w') →
  runs w' = runs w ∧
  files w' = filter (λ kv, String.prefix (d +:+ "/") kv.1 = false) (files w).
Proof.
  unfold rmtree. destruct (env_rmtree env d (ext w)) as [[|] x]; [|done].
  by intros [= <-].
Qed.

Lemma mkdtemp_Return (w w' : World X) d :
  mkdtemp env w = (Return d, w') → ∃ x, env_mkdtemp env (ext w) = (Some d, x).
Proof.
  unfold mkdtemp. destruct (env_mkdtemp env (ext w)) as [[d'|] x]; [|done].
  intros [= -> ?]. eauto.
Qed.

(** A successful pipeline ends with the encode to [output_path], started
    with [overwrite_output=True]; unless the output lies below the temporary
    directory, the output file then holds the bytes of that encode, whatever
    it held before. *)
Lemma create_video_from_images_success p out (w w' : World X) :
  create_video_from_images env p out w = (Return true, w') →
  ∃ ins kw bytes d x,
    last (runs w') = Some (FfCmd (ff_output ins out kw) true true, Some bytes) ∧
    (length (runs w) < length (runs w'))%nat ∧
    env_mkdtemp env (ext w) = (Some d, x) ∧
    (String.prefix (d +:+ "/") out = false → files w' !! out = Some bytes).
Proof.
  unfold create_video_from_images, try_except.
  destruct (pipeline env p out w) as [[b|e] w1] eqn:E; [|by rewrite ret_run].
  intros [= -> ->]. unfold pipeline in E.
  apply bind_Return_inv in E as (d & wa & Ha & E).
  apply bind_Return_inv in E as (clips & wb & Hb & E).
  apply bind_Return_inv in E as ([] & wc & Hc & E).
  rewrite ret_run in E. injection E as ->.
  unfold compose_and_encode in Hc. case_bool_decide; [done|].
  apply bind_Return_inv in Hc as (s & w2 & H2 & Hc).
  apply bind_Return_inv in Hc as (s1 & w3 & H3 & Hc).
  apply bind_Return_inv in Hc as (s2 & w4 & H4 & Hc).
  apply bind_Return_inv in Hc as ([] & w5 & H5 & Hc).
  apply add_music_output in H4 as Hs2. destruct Hs2 as (ins & kw & ->).
  apply ffmpeg_run_Return in H5 as (bytes & H5 & _ & Hf5).
  apply rmtree_Return in Hc as (H6 & Hf6).
  destruct (mkdtemp_Return _ _ _ Ha) as (x & Hx).
  exists ins, kw, bytes, d, x. rewrite H6, H5, last_snoc.
  split; [done|]. split; [|split; [done|]].
  - rewrite length_app. simpl.
    assert (runs w `prefix_of` runs w4) as Hpre%prefix_length; [|lia].
    pose proof (runs_extended_step (X:=X)) as Hstep.
    trans (runs wa);
      [exact (stable_eq _ _ _ _ _ (stable_mkdtemp env runs_extended Hstep) Ha)|].
    trans (runs wb);
      [exact (stable_eq _ _ _ _ _ (stable_render_clips env runs_extended Hstep p d) Hb)|].
    trans (runs w2);
      [exact (stable_eq _ _ _ _ _
                (stable_index_error runs_extended (concat_clips clips)) H2)|].
    trans (runs w3);
      [exact (stable_eq _ _ _ _ _ (stable_add_logo env runs_extended Hstep p d s) H3)|].
    exact (stable_eq _ _ _ _ _ (stable_add_music env runs_extended Hstep p d out s1) H4).
  - intros Hout. rewrite Hf6, (Hf5 out) by done.
    apply map_lookup_filter_Some. split; [apply lookup_insert_eq | done].
Qed.

(** A [generate] call that returns has run the encode to the output path of
    [(project_id, resolution)] and has left images and resolution alone. *)
Lemma generate_video_success pid p (w w' : World X) r :
  find_one pid (db w) = Some p →
  generate_video env pid w = (Return r, w') →
  let path := output_path_of env pid (VideoProject.resolution p) in
  (∃ c bytes d x,
     last (runs w') = Some (c, Some bytes) ∧
     output_file (cmd_stream c) = Some path ∧
     cmd_overwrite_output c = true ∧
     env_mkdtemp env (ext w) = (Some d, x) ∧
     (String.prefix (d +:+ "/") path = false → files w' !! path = Some bytes)) ∧
  (length (runs w) < length (runs w'))%nat ∧
  resp_video_url r
    = "/api/videos/" +:+ output_filename pid (VideoProject.resolution p) ∧
  ∃ p', find_one pid (db w') = Some p' ∧
        VideoProject.resolution p' = VideoProject.resolution p.
Proof.
  intros Hfind Hgen path.
  destruct (decide (VideoProject.images p = [])) as [Hnil|Hne].
  { by rewrite (generate_video_rejects env w pid p Hfind Hnil) in Hgen. }
  rewrite (generate_video_run env w pid p Hfind Hne) in Hgen. cbv zeta in Hgen.
  set (w1 := MkWorld _ _ _ _ _) in Hgen.
  fold (output_path_of env pid (VideoProject.resolution p)) in Hgen. fold path in Hgen.
  pose proof (create_video_from_images_same_db env p path w1) as Hdb.
  unfold same_db in Hdb.
  destruct (create_video_from_images env p path w1) as [[[|]|e] w2] eqn:E;
    simpl in Hgen; [|done|done].
  injection Hgen as <- <-. simpl in *.
  apply create_video_from_images_success in E
    as (ins & kw & bytes & d & x & Hlast & Hlen & Hd & Hfile).
  split; [|split; [exact Hlen|split; [done|]]].
  - exists (FfCmd (ff_output ins path kw) true true), bytes, d, x. done.
  - rewrite Hdb. unfold w1. simpl. rewrite !find_one_update_one, Hfind by done.
    simpl. eauto.
Qed.

(** C7. The output path is the function
    [OUTPUT_DIR / "{project_id}_{resolution}.mp4"] of the project id and the
    resolution, and two consecutive [generate] calls that return for the
    same project both end with an encode, started with
    [overwrite_output=True], to that one path; the second call runs its own
    encode and answers with the same video URL, and (the output directory
    not lying below the temporary directory of the second call) the file at
    the path then holds the bytes of the second encode. *)
Theorem generate_video_same_output_path pid p (w w1 w2 : World X) r1 r2 :
  find_one pid (db w) = Some p →
  generate_video env pid w = (Return r1, w1) →
  generate_video env pid w1 = (Return r2, w2) →
  let path :=
    env_output_path env (pid +:+ "_" +:+ VideoProject.resolution p +:+ ".mp4") in
  output_path_of env pid (VideoProject.resolution p) = path ∧
  ∃ c1 bytes1 c2 bytes2 d2 x2,
    last (runs w1) = Some (c1, Some bytes1) ∧
    last (runs w2) = Some (c2, Some bytes2) ∧
    output_file (cmd_stream c1) = Some path ∧
    output_file (cmd_stream c2) = Some path ∧
    cmd_overwrite_output c1 = true ∧ cmd_overwrite_output c2 = true ∧
    (length (runs w1) < length (runs w2))%nat ∧
    resp_video_url r1 = resp_video_url r2 ∧
    env_mkdtemp env (ext w1) = (Some d2, x2) ∧
    (String.prefix (d2 +:+ "/") path = false → files w2 !! path = Some bytes2).
Proof.
  intros Hfind H1 H2 path. split; [done|].
  destruct (generate_video_success pid p w w1 r1 Hfind H1)
    as ((c1 & b1 & _ & _ & Hl1 & Ho1 & Hw1 & _) & _ & Hu1 & p' & Hfind' & Hres).
  destruct (generate_video_success pid p' w1 w2 r2 Hfind' H2)
    as ((c2 & b2 & d2 & x2 & Hl2 & Ho2 & Hw2 & Hd2 & Hf2) & Hlen & Hu2 & _).
  rewrite Hres in Ho2, Hu2, Hf2.
  exists c1, b1, c2, b2, d2, x2. repeat split; try done. by rewrite Hu1, Hu2.
Qed.
End Output.

(** ** The temporary directory *)

Section Cleanup.
Context {X : Type} (env : Env X).

Lemma stable_on_raise_rmtree d : stable_on_raise dirs_kept (rmtree env d).
Proof.
  intros w e w'. unfold rmtree. destruct (env_rmtree env d (ext w)) as [[|] x]; [done|].
  intros [= ? <-]. by unfold dirs_kept.
Qed.

Lemma stable_on_raise_compose_and_encode p tmp out clips :
  stable_on_raise dirs_kept (compose_and_encode env p tmp out clips).
Proof.
  pose proof (dirs_kept_step (X:=X)) as Hstep.
  unfold compose_and_encode. case_bool_decide;
    [intros w e w' [= ? <-]; by unfold dirs_kept|].
  apply stable_on_raise_bind; [apply _ | apply stable_index_error, _ | intros s].
  apply stable_on_raise_bind;
    [apply _ | apply (stable_add_logo env dirs_kept Hstep) | intros s1].
  apply stable_on_raise_bind;
    [apply _ | apply (stable_add_music env dirs_kept Hstep) | intros s2].
  apply stable_on_raise_bind;
    [apply _ | apply (stable_ffmpeg_run env dirs_kept Hstep) | intros _].
  apply stable_on_raise_rmtree.
Qed.

(** The pipeline removes the temporary directory on no failure path: whenever
    [mkdtemp] has made the directory and [create_video_from_images] returns
    [False], the directory still exists. *)
Lemma temp_dir_kept_on_failure p out (w wa w' : World X) d :
  mkdtemp env w = (Return d, wa) →
  create_video_from_images env p out w = (Return false, w') →
  d ∈ dirs w'.
Proof.
  intros Ha. pose proof (dirs_kept_step (X:=X)) as Hstep.
  assert (d ∈ dirs wa) as Hd.
  { revert Ha. unfold mkdtemp. destruct (env_mkdtemp env (ext w)) as [[d'|] x]; [|done].
    intros [= -> <-]. simpl. set_solver. }
  unfold create_video_from_images, try_except, pipeline. rewrite bind_run, Ha, bind_run.
  pose proof (stable_render_clips env dirs_kept Hstep p d wa) as Hb.
  destruct (render_clips env p d wa) as [[clips|e] wb]; simpl in Hb.
  - rewrite bind_run.
    destruct (compose_and_encode env p d out clips wb) as [[[]|e] wc] eqn:Hc.
    + by rewrite !ret_run.
    + apply stable_on_raise_compose_and_encode in Hc.
      rewrite ret_run. intros [= <-]. unfold dirs_kept in *. set_solver.
  - rewrite ret_run. intros [= <-]. unfold dirs_kept in *. set_solver.
Qed.

(** On the success path it is gone. *)
Lemma temp_dir_removed_on_success p out (w wa w' : World X) d :
  mkdtemp env w = (Return d, wa) →
  create_video_from_images env p out w = (Return true, w') →
  d ∉ dirs w'.
Proof.
  intros Ha. unfold create_video_from_images, try_except.
  destruct (pipeline env p out w) as [[b|e] w1] eqn:E; [|by rewrite ret_run].
  intros [= -> ->]. unfold pipeline in E. rewrite bind_run, Ha in E.
  apply bind_Return_inv in E as (clips & wb & Hb & E).
  apply bind_Return_inv in E as ([] & wc & Hc & E).
  rewrite ret_run in E. injection E as ->.
  unfold compose_and_encode in Hc. case_bool_decide; [done|].
  apply bind_Return_inv in Hc as (s & w2 & H2 & Hc).
  apply bind_Return_inv in Hc as (s1 & w3 & H3 & Hc).
  apply bind_Return_inv in Hc as (s2 & w4 & H4 & Hc).
  apply bind_Return_inv in Hc as ([] & w5 & H5 & Hc).
  revert Hc. unfold rmtree. destruct (env_rmtree env d (ext w5)) as [[|] x]; [|done].
  intros [= <-]. simpl. rewrite elem_of_difference, elem_of_singleton. tauto.
Qed.
End Cleanup.

(** ** The pipeline on concrete worlds *)

(** [int(duration*30)] is taken on the rounded product: 41 seconds over 5
    images give 245 frames, where the exact product is 246. *)
Example frames_of_rounded :
  frames_of (41 # 5) = Ok 245 ∧ frames_of (30 # 2) = Ok 450 ∧
  zoom_filter_of 640 480 (zoom_start_of 3)
    = Ok [Lit "scale="; Num (PyInt 832); Lit ":"; Num (PyInt 624)].
Proof. by vm_compute. Qed.

Lemma ken_burns_cmd_filter_chain img out d n :
  filter_chain (cmd_stream (ken_burns_cmd img out d n)) =
    [("scale", [VInt 1080; VInt 1920], []);
     ("zoompan", [],
      [("z", VStr "min(zoom+0.0015,1.5)"); ("d", VInt n);
       ("x", VStr "iw/2-(iw/zoom/2)"); ("y", VStr "ih/2-(ih/zoom/2)");
       ("s", VStr "1080x1920")])].
Proof. reflexivity. Qed.

(** Scenario D of the specification: the second of three images cannot be
    rendered; the job completes with the two other clips and one transition. *)
Example scenario_corrupt_image :
  let p := example_project ["a"; "b"; "c"] None None in
  let r := generate_video (example_env ["/tmp/tmp0/image_1.jpg"] []) "p1" (example_world p) in
  r.1 = Return (Response "Video generated successfully" "/api/videos/p1_1080p.mp4") ∧
  (VideoProject.status <$> db r.2) = ["completed"] ∧
  (cmd_stream ∘ fst <$> last (runs r.2)) =
    Some (ff_output
            [xfade (ff_input "/tmp/tmp0/clip_0.mp4" []) (ff_input "/tmp/tmp0/clip_2.mp4" [])]
            "/srv/outputs/p1_1080p.mp4"
            [("vcodec", VStr "libx264"); ("pix_fmt", VStr "yuv420p")]).
Proof. vm_compute. done. Qed.

(** Scenario C of the specification: one image, a logo and a music track;
    the clip goes through without a transition, the logo is overlaid and the
    music is the audio stream of the output. *)
Example scenario_logo_and_music :
  let p := example_project ["a"] (Some "logo") (Some "music") in
  let r := generate_video (example_env [] []) "p1" (example_world p) in
  (VideoProject.status <$> db r.2) = ["completed"] ∧
  (cmd_stream ∘ fst <$> last (runs r.2)) =
    Some (ff_output
            [ff_overlay (ff_input "/tmp/tmp0/clip_0.mp4" []) (ff_input "/tmp/tmp0/logo.png" [])
               [("x", VStr "W-w-20"); ("y", VStr "H-h-20"); ("eval", VStr "init")];
             ff_audio (ff_input "/tmp/tmp0/music.mp3" [])]
            "/srv/outputs/p1_1080p.mp4"
            [("vcodec", VStr "libx264"); ("acodec", VStr "aac");
             ("pix_fmt", VStr "yuv420p")]).
Proof. vm_compute. done. Qed.

(** The encoder fails on the second of three clips: the job completes
    with the two other clips. *)
Example scenario_failed_clip_encode :
  let p := example_project ["a"; "b"; "c"] None None in
  let env := example_env [] ["/tmp/tmp0/clip_1.mp4"] in
  let r := generate_video env "p1" (example_world p) in
  (image_outcomes env p "/tmp/tmp0" 0 ["a"; "b"; "c"]
     (mkdtemp env (example_world p)).2).1 = Return [true; false; true] ∧
  (VideoProject.status <$> db r.2) = ["completed"] ∧
  (cmd_stream ∘ fst <$> last (runs r.2)) =
    Some (ff_output
            [xfade (ff_input "/tmp/tmp0/clip_0.mp4" []) (ff_input "/tmp/tmp0/clip_2.mp4" [])]
            "/srv/outputs/p1_1080p.mp4"
            [("vcodec", VStr "libx264"); ("pix_fmt", VStr "yuv420p")]).
Proof. vm_compute. done. Qed.


(** C4. The temporary directory is removed on the success path only.  When
    the final encode fails (scenario E of the specification), or when no clip
    can be rendered, [create_video_from_images] returns [False] and the
    directory made by [mkdtemp] still exists, with the files written into it;
    on the same project with a working encoder it is gone. *)
Theorem temp_dir_left_after_failure :
  let p := example_project ["a"; "b"] None None in
  let out := "/srv/outputs/p1_1080p.mp4" in
  let encode_fails :=
    create_video_from_images (example_env [] [out]) p out (example_world p) in
  let render_fails :=
    create_video_from_images (example_env ["/tmp/tmp0/image_0.jpg"; "/tmp/tmp0/image_1.jpg"] [])
      p out (example_world p) in
  let succeeds := create_video_from_images (example_env [] []) p out (example_world p) in
  (encode_fails.1 = Return false ∧
   "/tmp/tmp0" ∈ dirs encode_fails.2 ∧
   files encode_fails.2 !! "/tmp/tmp0/clip_0.mp4" = Some "video1") ∧
  (render_fails.1 = Return false ∧
   "/tmp/tmp0" ∈ dirs render_fails.2 ∧
   files render_fails.2 !! "/tmp/tmp0/image_0.jpg" = Some "a") ∧
  (succeeds.1 = Return true ∧ "/tmp/tmp0" ∉ dirs succeeds.2).
Proof.
  repeat split; try (vm_compute; reflexivity);
    apply (bool_decide_unpack _); vm_compute; exact I.
Qed.

(** C8. The parameters computed for two images differ, yet the two clips
    are rendered by the same filter chain: on a two-image project the renders
    of image 0 and of image 1 are started with equal [scale] and [zoompan]
    filters, whose expressions mention neither zoom start nor pan. *)
Theorem clips_rendered_with_identical_motion :
  let p := example_project ["a"; "b"] None None in
  let out := "/srv/outputs/p1_1080p.mp4" in
  let r := create_video_from_images (example_env [] []) p out (example_world p) in
  zoom_start_of 0 ≠ zoom_start_of 1 ∧
  pan_x_of 0 ≠ pan_x_of 1 ∧
  ∃ c0 c1 c,
    runs r.2 = [(c0, Some "video1"); (c1, Some "video2"); (c, Some "video3")] ∧
    output_file (cmd_stream c0) = Some "/tmp/tmp0/clip_0.mp4" ∧
    output_file (cmd_stream c1) = Some "/tmp/tmp0/clip_1.mp4" ∧
    filter_chain (cmd_stream c0) = filter_chain (cmd_stream c1) ∧
    filter_chain (cmd_stream c0) =
      [("scale", [VInt 1080; VInt 1920], []);
       ("zoompan", [],
        [("z", VStr "min(zoom+0.0015,1.5)"); ("d", VInt 450);
         ("x", VStr "iw/2-(iw/zoom/2)"); ("y", VStr "ih/2-(ih/zoom/2)");
         ("s", VStr "1080x1920")])].
Proof.
  split; [by vm_compute|]. split; [by vm_compute|].
  do 3 eexists. split; [vm_compute; reflexivity|]. by vm_compute.
Qed.

(** ** Instances *)

Lemma generate_video_terminal_status_witness :
  let env := example_env [] [] in
  let p := example_project ["a"; "b"] None None in
  let w := example_world p in
  find_one "p1" (db w) = Some p ∧
  VideoProject.images p ≠ [] ∧
  ∃ p', find_one "p1" (db (generate_video env "p1" w).2) = Some p' ∧
        terminal (VideoProject.status p') ∧
        VideoProject.status p' ≠ "processing" ∧
        match (generate_video env "p1" w).1 with
        | Return _ => VideoProject.status p' = "completed"
        | Raise _ => VideoProject.status p' = "failed"
        end.
Proof.
  intros env p w. split; [reflexivity|]. split; [discriminate|].
  apply (generate_video_terminal_status env w "p1" p); [reflexivity | discriminate].
Defined.

Lemma generate_video_no_images_witness :
  let env := example_env [] [] in
  let p := example_project [] None None in
  let w := example_world p in
  find_one "p1" (db w) = Some p ∧
  VideoProject.images p = [] ∧
  generate_video env "p1" w = (Raise (HTTPException 400 "No images uploaded"), w) ∧
  find_one "p1" (db (generate_video env "p1" w).2) = Some p ∧
  runs (generate_video env "p1" w).2 = runs w.
Proof.
  intros env p w. split; [reflexivity|]. split; [reflexivity|].
  apply (generate_video_no_images env w "p1" p); reflexivity.
Defined.

Lemma clip_duration_equal_split_witness :
  let env := example_env [] [] in
  let p := example_project ["a"; "b"; "c"] None None in
  VideoProject.images p ≠ [] ∧
  (∀ w : World nat, clip_duration p w = (Return (30 # 3)%Q, w)) ∧
  (fold_right Qplus 0 (map (λ _, (30 # 3)%Q) (VideoProject.images p)) == 30)%Q.
Proof.
  intros env p. split; [discriminate|].
  destruct (clip_duration_equal_split env p) as (H1 & _ & H3); [discriminate|].
  split; [exact H1 | exact H3].
Defined.

Lemma generate_video_same_output_path_witness :
  let env := example_env [] [] in
  let p := example_project ["a"; "b"] None None in
  let w := example_world p in
  let w1 := (generate_video env "p1" w).2 in
  let w2 := (generate_video env "p1" w1).2 in
  let r := Response "Video generated successfully" "/api/videos/p1_1080p.mp4" in
  find_one "p1" (db w) = Some p ∧
  generate_video env "p1" w = (Return r, w1) ∧
  generate_video env "p1" w1 = (Return r, w2) ∧
  ∃ c1 bytes1 c2 bytes2,
    last (runs w1) = Some (c1, Some bytes1) ∧
    last (runs w2) = Some (c2, Some bytes2) ∧
    output_file (cmd_stream c1) = Some "/srv/outputs/p1_1080p.mp4" ∧
    output_file (cmd_stream c2) = Some "/srv/outputs/p1_1080p.mp4" ∧
    cmd_overwrite_output c1 = true ∧ cmd_overwrite_output c2 = true ∧
    (length (runs w1) < length (runs w2))%nat ∧
    files w2 !! "/srv/outputs/p1_1080p.mp4" = Some bytes2.
Proof.
  intros env p w w1 w2 r.
  split; [reflexivity|]. split; [vm_compute; reflexivity|]. split; [vm_compute; reflexivity|].
  destruct (generate_video_same_output_path env "p1" p w w1 w2 r r)
    as (_ & c1 & b1 & c2 & b2 & d2 & x2 & H1 & H2 & H3 & H4 & H5 & H6 & H7 & _ & Hd & Hf);
    [reflexivity | vm_compute; reflexivity | vm_compute; reflexivity |].
  exists c1, b1, c2, b2. repeat split; try assumption.
  apply Hf. vm_compute in Hd. injection Hd as <- _. vm_compute. reflexivity.
Defined.

